(** * The language/version flyout of the documentation sites

    A shallow embedding of the flyout script ([getTargetUrl] and
    [createFlyout]) together with the properties of its URL resolver, of its
    renderer and of its two-flag disclosure state machine.

    JavaScript strings are modelled by [string], a character standing for
    a code unit; every string operation the script uses ([startsWith],
    [lastIndexOf], [substring], [replace] with a string pattern, template
    literals) is written out below and none of them looks inside a
    character.  The class list of a DOM element is a finite set of class
    names. *)

From Stdlib Require Import ZArith Lia Ascii.
From stdpp Require Import base strings list gmap.

#[local] Arguments String.append !_ _ : simpl nomatch.

(** ** JavaScript string primitives *)

Module JsString.

Definition len (s : string) : nat := String.length s.

Fixpoint take (n : nat) (s : string) : string :=
  match n, s with
  | S n', String a s' => String a (take n' s')
  | _, _ => ""
  end.

Fixpoint drop (n : nat) (s : string) : string :=
  match n, s with
  | S n', String _ s' => drop n' s'
  | _, _ => s
  end.

(** [s.startsWith(p)] *)
Fixpoint startsWith (s p : string) {struct p} : bool :=
  match p, s with
  | "", _ => true
  | String a p', String b s' => if Ascii.eqb a b then startsWith s' p' else false
  | String _ _, "" => false
  end.

(** [StringIndexOf(s, p, 0)]: the least position at which [p] occurs in
    [s], [None] standing for not-found. *)
Fixpoint indexOf (s p : string) : option nat :=
  if startsWith s p then Some 0
  else match s with
       | "" => None
       | String _ s' => S <$> indexOf s' p
       end.

(** [s.lastIndexOf(p)], counting positions from [i]; -1 when [p] does not
    occur. *)
Fixpoint lastIndexOf_from (i : Z) (s p : string) : Z :=
  match s with
  | "" => if startsWith "" p then i else (-1)%Z
  | String _ s' =>
      let r := lastIndexOf_from (i + 1) s' p in
      if (0 <=? r)%Z then r
      else if startsWith s p then i else (-1)%Z
  end.

Definition lastIndexOf (s p : string) : Z := lastIndexOf_from 0 s p.

(** [s.substring(start, end)]: both indices are clamped to [0, length]
    and swapped when out of order. *)
Definition substring (s : string) (start end_ : Z) : string :=
  let n := Z.of_nat (len s) in
  let clamp i := Z.min (Z.max i 0) n in
  let a := clamp start in
  let b := clamp end_ in
  let from := Z.min a b in
  let to := Z.max a b in
  take (Z.to_nat (to - from)) (drop (Z.to_nat from) s).

(** [GetSubstitution] for a string pattern: there are no captures and no
    named groups, so [$n] and [$<] stand for themselves and only the four
    references [$$], [$&], [$`] and [$'] are expanded. *)
Fixpoint GetSubstitution (matched preceding following template : string)
  : string :=
  match template with
  | "" => ""
  | String a tl =>
      if Ascii.eqb a "$"%char then
        match tl with
        | String c rest =>
            if Ascii.eqb c "$"%char then
              "$" +:+ GetSubstitution matched preceding following rest
            else if Ascii.eqb c "`"%char then
              preceding +:+ GetSubstitution matched preceding following rest
            else if Ascii.eqb c "&"%char then
              matched +:+ GetSubstitution matched preceding following rest
            else if Ascii.eqb c "'"%char then
              following +:+ GetSubstitution matched preceding following rest
            else String a (GetSubstitution matched preceding following tl)
        | "" => String a ""
        end
      else String a (GetSubstitution matched preceding following tl)
  end.

(** [s.replace(searchValue, replaceValue)] with a string [searchValue]:
    only the first occurrence is rewritten. *)
Definition replace (s searchValue replaceValue : string) : string :=
  match indexOf s searchValue with
  | None => s
  | Some pos =>
      let preceding := take pos s in
      let following := drop (pos + len searchValue) s in
      preceding
        +:+ GetSubstitution searchValue preceding following replaceValue
        +:+ following
  end.

(** A replacement template that holds one of the four expanded references. *)
Fixpoint has_reference (template : string) : bool :=
  match template with
  | "" => false
  | String a tl =>
      (Ascii.eqb a "$"%char &&
         match tl with
         | String c _ =>
             Ascii.eqb c "$"%char || Ascii.eqb c "`"%char || Ascii.eqb c "&"%char
             || Ascii.eqb c "'"%char
         | "" => false
         end)
      || has_reference tl
  end.

(** [p] occurs in [s] with [pre] before it and [post] after it. *)
Definition occurrence (s p pre post : string) : Prop :=
  s = pre +:+ p +:+ post.

Definition contains (s p : string) : Prop :=
  ∃ pre post, occurrence s p pre post.

(** The pattern occurs at [pre] and nowhere further left. *)
Definition leftmost (s p pre post : string) : Prop :=
  occurrence s p pre post
  ∧ ∀ pre' post', occurrence s p pre' post' → len pre ≤ len pre'.

End JsString.

Import JsString.

(** ** Effects of an [async] function body

    A statement of the script either completes normally, executes a
    [return], or throws.  It may issue network probes, suspend at an [await]
    and write to the console; these are recorded in the order they happen.
    The network is the environment: it settles every probe, either with a
    response status or by rejecting it. *)

Module Js.

Inductive FetchOutcome :=
| Fulfilled (status : nat)
| Rejected (reason : string).

Definition Network := string → FetchOutcome.

Inductive Event :=
| EvFetch (url method : string)
| EvAwait
| EvWarn (args : list string)
| EvError (args : list string).

Inductive Completion (A : Type) :=
| Normal (a : A)
| Return (v : string)
| Throw (e : string).
Global Arguments Normal {A} a.
Global Arguments Return {A} v.
Global Arguments Throw {A} e.

Definition Async (A : Type) : Type := Network → Completion A * list Event.

Global Instance Async_ret : MRet Async := λ A a _, (Normal a, []).

Global Instance Async_bind : MBind Async := λ A B k m net,
  match m net with
  | (Normal a, t) => let '(c, t') := k a net in (c, t ++ t')
  | (Return v, t) => (Return v, t)
  | (Throw e, t) => (Throw e, t)
  end.

(** [return v;] *)
Definition return_ {A} (v : string) : Async A := λ _, (Return v, []).

(** [try { body } catch (error) { handler }]: only a throw is caught, a
    [return] inside [body] leaves the function. *)
Definition try_catch {A} (body : Async A) (handler : string → Async A)
  : Async A := λ net,
  match body net with
  | (Throw e, t) => let '(c, t') := handler e net in (c, t ++ t')
  | r => r
  end.

(** [await fetch(url, { method })]: the probe is issued, the function
    suspends, and resumes with the response status or with the rejection
    thrown at the [await]. *)
Definition await_fetch (url method : string) : Async nat := λ net,
  match net url with
  | Fulfilled status => (Normal status, [EvFetch url method; EvAwait])
  | Rejected reason => (Throw reason, [EvFetch url method; EvAwait])
  end.

(** [response.ok] *)
Definition ok (status : nat) : bool :=
  (200 <=? status) && (status <=? 299).

Definition console_warn (args : list string) : Async unit :=
  λ _, (Normal (), [EvWarn args]).

Definition console_error (args : list string) : Async unit :=
  λ _, (Normal (), [EvError args]).

(** How the promise of an [async] function settles; [None] is
    [undefined]. *)
Inductive Settled :=
| Resolved (v : option string)
| RejectedWith (e : string).

Definition async_function (body : Async unit)
  : Network → Settled * list Event := λ net,
  match body net with
  | (Normal _, t) => (Resolved None, t)
  | (Return v, t) => (Resolved (Some v), t)
  | (Throw e, t) => (RejectedWith e, t)
  end.

(** A template literal converts an [undefined] value to this text. *)
Definition to_string (v : option string) : string :=
  match v with Some s => s | None => "undefined" end.

End Js.

Import Js.

(** ** The page the script is loaded in *)

Record Page := {
  location_href : string;
  location_pathname : string;
  location_origin : string;
  currentScript_src : string;
  CURRENT_LANGUAGE : string;
  CURRENT_VERSION : string;
  CONFIG_LANGUAGES : list (string * string);
  CONFIG_VERSIONS : list (string * string);
  CONFIG_PROJECTS : list (string * string)
}.

(** ** The URL resolver *)

Section Resolver.

Variable page : Page.

Definition _is_file_uri (uri : string) : bool := startsWith uri "file:/".
Definition _IS_LOCAL : bool := _is_file_uri (location_href page).
Definition _CURRENT_LANGUAGE : string := CURRENT_LANGUAGE page.
Definition _CURRENT_VERSION : string := CURRENT_VERSION page.
Definition _FLYOUT_JS_FILE : string := currentScript_src page.
Definition _FLYOUT_JS_DIR : string :=
  substring _FLYOUT_JS_FILE 0 (lastIndexOf _FLYOUT_JS_FILE "/").
Definition _SERVER_ROOT : string := location_origin page.

(** The [targetPath] variable after the [if]/[else if] on [type]; it
    stays [undefined] when [type] is neither axis. *)
Definition targetPath (type selectedValue : string) : option string :=
  let currentPath := location_pathname page in
  if decide (type = "language") then
    Some (replace currentPath
            ("/" +:+ _CURRENT_LANGUAGE +:+ "/")
            ("/" +:+ selectedValue +:+ "/"))
  else if decide (type = "version") then
    Some (replace currentPath
            ("/" +:+ _CURRENT_VERSION +:+ "/")
            ("/" +:+ selectedValue +:+ "/"))
  else None.

Definition targetUrl (type selectedValue : string) : string :=
  if _IS_LOCAL
  then "file://" +:+ to_string (targetPath type selectedValue)
  else _SERVER_ROOT +:+ to_string (targetPath type selectedValue).

Definition fallbackUrl (type selectedValue : string) : string :=
  (_FLYOUT_JS_DIR +:+ "/")
    +:+ ((if decide (type = "language")
          then selectedValue else _CURRENT_LANGUAGE) +:+ "/")
    +:+ ((if decide (type = "version")
          then selectedValue else _CURRENT_VERSION) +:+ "/index.html").

Definition getTargetUrl (type selectedValue : string)
  : Network → Settled * list Event :=
  async_function (
    let targetUrl := targetUrl type selectedValue in
    if _IS_LOCAL then return_ targetUrl
    else
      try_catch
        (response ← await_fetch targetUrl "HEAD";
         if ok response then return_ targetUrl
         else console_warn
                ["Target URL does not exist, using fallback URL:";
                 targetUrl])
        (λ error, console_error ["Error checking target URL:"; error]);;
      return_ (fallbackUrl type selectedValue)).

End Resolver.

(** The navigation axes of the resolver's contract and the [type] strings
    that select them. *)
Inductive Axis := Language | Version.

Definition axis_type (a : Axis) : string :=
  match a with Language => "language" | Version => "version" end.

Definition current_code (page : Page) (a : Axis) : string :=
  match a with
  | Language => CURRENT_LANGUAGE page
  | Version => CURRENT_VERSION page
  end.

(** A page served over http. *)
Definition served_page : Page := {|
  location_href := "https://docs.example.org/en-us/latest/guide.html";
  location_pathname := "/en-us/latest/guide.html";
  location_origin := "https://docs.example.org";
  currentScript_src := "https://docs.example.org/_static/ltd-flyout.js";
  CURRENT_LANGUAGE := "en-us";
  CURRENT_VERSION := "latest";
  CONFIG_LANGUAGES :=
    [("en-us", "English"); ("zh-cn", "Chinese (Simplified)");
     ("zh-tw", "Chinese (Traditional)")];
  CONFIG_VERSIONS :=
    [("master", "Development"); ("latest", "Latest Release");
     ("stable", "Stable Release"); ("3.9", "Release 3.9");
     ("3.9", "Release 3.9"); ("3.8", "Release 3.8")];
  CONFIG_PROJECTS :=
    [("Index", "https://projects.localizethedocs.org");
     ("newline", "");
     ("GitHub", "https://github.com/localizethedocs/demo-docs-l10n")]
|}.

(** The same page opened from the file system. *)
Definition local_page : Page := {|
  location_href := "file:///home/me/site/en-us/latest/guide.html";
  location_pathname := "/home/me/site/en-us/latest/guide.html";
  location_origin := "null";
  currentScript_src := "file:///home/me/site/_static/ltd-flyout.js";
  CURRENT_LANGUAGE := CURRENT_LANGUAGE served_page;
  CURRENT_VERSION := CURRENT_VERSION served_page;
  CONFIG_LANGUAGES := CONFIG_LANGUAGES served_page;
  CONFIG_VERSIONS := CONFIG_VERSIONS served_page;
  CONFIG_PROJECTS := CONFIG_PROJECTS served_page
|}.

Definition always (o : FetchOutcome) : Network := λ _, o.

(** ** The flyout presenter: rendering *)

(** The double quote of an HTML attribute value. *)
Definition dq : string := String (ascii_of_nat 34) "".

(** [[...].join("")] *)
Definition join (parts : list string) : string :=
  foldr String.append "" parts.

(** What a rendered configuration entry hands to its template literal: the
    values interpolated into an option of a selector or into a link of the
    project list, or nothing at all for the row that breaks the line.  The
    values are interpolated as they are; what a browser makes of markup
    characters inside them is not modelled. *)
Inductive Row :=
| OptionRow (value : string) (selected : bool) (code name : string)
| LinkRow (href text : string)
| NewlineRow.

(** The markup of a row, as the template literals of [createFlyout] spell
    it. *)
Definition html (r : Row) : string :=
  match r with
  | OptionRow value selected code name =>
      "<option value=" +:+ dq +:+ value +:+ dq +:+ " "
        +:+ (if selected then "selected" else "") +:+ ">"
        +:+ code +:+ " : " +:+ name +:+ "</option>"
  | LinkRow href text =>
      "<dd class=" +:+ dq +:+ "options" +:+ dq +:+ "><a href=" +:+ dq
        +:+ href +:+ dq +:+ ">" +:+ text +:+ "</a></dd>"
  | NewlineRow =>
      "<dd class=" +:+ dq +:+ "newline" +:+ dq +:+ "></dd>"
  end.

Section Presenter.

Variable page : Page.

Definition _CONFIG_LANGUAGES := CONFIG_LANGUAGES page.
Definition _CONFIG_VERSIONS := CONFIG_VERSIONS page.
Definition _CONFIG_PROJECTS := CONFIG_PROJECTS page.

(** The callback of [.map] in the two selectors. *)
Definition option_row (current : string) (entry : string * string) : Row :=
  let '(code, name) := entry in
  OptionRow code (bool_decide (code = current)) code name.

(** The callback of [.map] over the project links. *)
Definition project_row (entry : string * string) : Row :=
  let '(project, link) := entry in
  if decide (project = "newline") then NewlineRow
  else LinkRow link project.

Definition languageRows : list Row :=
  option_row (_CURRENT_LANGUAGE page)
    <$> filter (λ lang, lang.1 ≠ "newline") _CONFIG_LANGUAGES.

Definition versionRows : list Row :=
  option_row (_CURRENT_VERSION page)
    <$> filter (λ version, version.1 ≠ "newline") _CONFIG_VERSIONS.

Definition projectRows : list Row := project_row <$> _CONFIG_PROJECTS.

Definition languageOptions : string := join (html <$> languageRows).
Definition versionOptions : string := join (html <$> versionRows).
Definition sortedProjects : string := join (html <$> projectRows).

End Presenter.

(** A configuration entry whose code (or label) is the reserved word. *)
Definition sentinel (entry : string * string) : Prop := entry.1 = "newline".

(** ** The flyout presenter: disclosure state *)

Module ClassList.

Definition t := gset string.

Definition contains (c : string) (l : t) : bool := bool_decide (c ∈ l).
Definition add (c : string) (l : t) : t := {[c]} ∪ l.
Definition remove (c : string) (l : t) : t := l ∖ {[c]}.

(** [l.toggle(c)]: the new list and whether [c] is now present. *)
Definition toggle (c : string) (l : t) : t * bool :=
  if contains c l then (remove c l, false) else (add c l, true).

(** [l.toggle(c, force)] *)
Definition toggle_force (c : string) (force : bool) (l : t) : t :=
  if force then add c l else remove c l.

End ClassList.

(** The elements whose class lists the listeners read or write. *)
Record Widget := {
  header : ClassList.t;
  label : ClassList.t;
  dividers : list ClassList.t;
  content : ClassList.t
}.

(** The class attributes of the markup [createFlyout] inserts. *)
Definition initial : Widget := {|
  header := {["ltd-flyout-header"]};
  label := {["ltd-flyout-header-label"]};
  dividers := [ {["ltd-flyout-divider"; "ltd-flyout-closed"]} ];
  content := {["ltd-flyout-content"; "ltd-flyout-closed"]}
|}.

(** Where a click lands. *)
Inductive Target := OnLabel | OnIcon | ElsewhereInFlyout | OutsideFlyout.

(** [flyout.contains(event.target)] *)
Definition flyout_contains (target : Target) : bool :=
  match target with OutsideFlyout => false | _ => true end.

(** A listener returns the new widget and whether it called
    [event.stopPropagation()]. *)
Definition label_listener (w : Widget) : Widget * bool :=
  let '(content', isHidden) :=
    ClassList.toggle "ltd-flyout-closed" (content w) in
  ({| header := header w;
      label := label w;
      dividers :=
        ClassList.toggle_force "ltd-flyout-closed" isHidden <$> dividers w;
      content := content' |}, true).

Definition icon_listener (w : Widget) : Widget * bool :=
  let '(label', labelHidden) := ClassList.toggle "hidden" (label w) in
  let header' := ClassList.toggle_force "ltd-icon-only" labelHidden (header w) in
  (if labelHidden then
     {| header := header';
        label := label';
        dividers := ClassList.add "ltd-flyout-closed" <$> dividers w;
        content := ClassList.add "ltd-flyout-closed" (content w) |}
   else
     {| header := header';
        label := label';
        dividers := dividers w;
        content := content w |}, true).

Definition document_listener (target : Target) (w : Widget) : Widget :=
  if negb (flyout_contains target) then
    {| header := header w;
       label := label w;
       dividers := ClassList.add "ltd-flyout-closed" <$> dividers w;
       content := ClassList.add "ltd-flyout-closed" (content w) |}
  else w.

(** A click bubbles from its target up to the document, unless a listener
    on the way stops it. *)
Definition click (target : Target) (w : Widget) : Widget :=
  let '(w', stopped) :=
    match target with
    | OnLabel => label_listener w
    | OnIcon => icon_listener w
    | ElsewhereInFlyout | OutsideFlyout => (w, false)
    end in
  if stopped then w' else document_listener target w'.

(** The two visibility flags of the widget, read off the class lists. *)
Definition contentExpanded (w : Widget) : bool :=
  negb (ClassList.contains "ltd-flyout-closed" (content w)).

Definition labelVisible (w : Widget) : bool :=
  negb (ClassList.contains "hidden" (label w)).

Definition dividerVisible (divider : ClassList.t) : bool :=
  negb (ClassList.contains "ltd-flyout-closed" divider).

(** The style sheet of [addStyles] gives a label of class [hidden] the rule
    [display: none], so a reader's click cannot land on it; every other
    target can always be clicked. *)
Definition displayed (target : Target) (w : Widget) : Prop :=
  match target with
  | OnLabel => "hidden" ∉ label w
  | _ => True
  end.

Inductive step : Widget → Widget → Prop :=
| step_click target w : displayed target w → step w (click target w).

Inductive reachable : Widget → Prop :=
| reachable_initial : reachable initial
| reachable_step w w' : reachable w → step w w' → reachable w'.

(** ** Vocabulary of the statements *)

(** Some occurrence of the current code between separators has been
    exchanged for the selected code, the rest of the path being kept. *)
Definition replaces_some_segment (page : Page) (a : Axis) (selected : string)
  : Prop :=
  ∃ pre post,
    occurrence (location_pathname page)
      ("/" +:+ current_code page a +:+ "/") pre post
    ∧ targetPath page (axis_type a) selected
      = Some (pre +:+ ("/" +:+ selected +:+ "/") +:+ post).

(** Every occurrence is exchanged in that way, whichever one is looked at. *)
Definition replaces_each_segment (page : Page) (a : Axis) (selected : string)
  : Prop :=
  ∀ pre post,
    occurrence (location_pathname page)
      ("/" +:+ current_code page a +:+ "/") pre post →
    targetPath page (axis_type a) selected
    = Some (pre +:+ ("/" +:+ selected +:+ "/") +:+ post).

(** [<asset-dir>/<language>/<version>/index.html] with the selected code on
    the requested axis and the current code on the other one. *)
Definition fallback_shape (page : Page) (a : Axis) (selected : string)
  : string :=
  match a with
  | Language =>
      _FLYOUT_JS_DIR page +:+ "/" +:+ selected +:+ "/"
        +:+ CURRENT_VERSION page +:+ "/index.html"
  | Version =>
      _FLYOUT_JS_DIR page +:+ "/" +:+ CURRENT_LANGUAGE page +:+ "/"
        +:+ selected +:+ "/index.html"
  end.

(** The prefix put before the path: the local-file scheme or the origin. *)
Definition url_prefix (page : Page) : string :=
  if _IS_LOCAL page then "file://" else _SERVER_ROOT page.

(** The expression that computes [languageOptions] and, with the other
    two constants, [versionOptions]: filter out the sentinels, map every
    entry to the text of its option, join. *)
Definition selectOptions (current : string) (config : list (string * string))
  : string :=
  join ((λ '(code, name),
          "<option value=" +:+ dq +:+ code +:+ dq +:+ " "
            +:+ (if bool_decide (code = current) then "selected" else "")
            +:+ ">" +:+ code +:+ " : " +:+ name +:+ "</option>")
        <$> filter (λ entry, entry.1 ≠ "newline") config).

(** The expression that computes [sortedProjects]: map every entry to the
    text of its row, join. *)
Definition projectLinks (config : list (string * string)) : string :=
  join ((λ '(project, link),
          if decide (project = "newline")
          then "<dd class=" +:+ dq +:+ "newline" +:+ dq +:+ "></dd>"
          else "<dd class=" +:+ dq +:+ "options" +:+ dq +:+ "><a href="
                 +:+ dq +:+ link +:+ dq +:+ ">" +:+ project
                 +:+ "</a></dd>")
        <$> config).

(** Every divider is shown exactly when the content panel is. *)
Definition dividers_mirror_content (w : Widget) : Prop :=
  Forall (λ divider, dividerVisible divider = contentExpanded w) (dividers w).

(** A hidden label goes with a collapsed content panel. *)
Definition collapsed_when_unlabelled (w : Widget) : Prop :=
  labelVisible w = false → contentExpanded w = false.

(** A served page whose path names neither the language nor the version. *)
Definition landing_page : Page := {|
  location_href := "https://docs.example.org/index.html";
  location_pathname := "/index.html";
  location_origin := "https://docs.example.org";
  currentScript_src := "https://docs.example.org/_static/ltd-flyout.js";
  CURRENT_LANGUAGE := "en-us";
  CURRENT_VERSION := "latest";
  CONFIG_LANGUAGES := CONFIG_LANGUAGES served_page;
  CONFIG_VERSIONS := CONFIG_VERSIONS served_page;
  CONFIG_PROJECTS := CONFIG_PROJECTS served_page
|}.

(** A page whose language code and version code coincide. *)
Definition twin_page : Page := {|
  location_href := "https://docs.example.org/v1/v1/guide.html";
  location_pathname := "/v1/v1/guide.html";
  location_origin := "https://docs.example.org";
  currentScript_src := "https://docs.example.org/_static/ltd-flyout.js";
  CURRENT_LANGUAGE := "v1";
  CURRENT_VERSION := "v1";
  CONFIG_LANGUAGES := [("v1", "One"); ("v2", "Two")];
  CONFIG_VERSIONS := [("v1", "One"); ("v2", "Two")];
  CONFIG_PROJECTS := []
|}.

(** ** The selectors' change listeners *)

(** [window.location.href = await promise]: the listener suspends on the
    promise; when it resolves, its value, as text, becomes the new
    [location.href]; when it is rejected nothing is assigned. *)
Definition assign_href_awaited (promise : Settled * list Event)
  : option string * list Event :=
  match promise with
  | (Resolved v, t) => (Some (to_string v), t ++ [EvAwait])
  | (RejectedWith _, t) => (None, t ++ [EvAwait])
  end.

Definition languageSelect_change (page : Page) (selectedLanguage : string)
  : Network → option string * list Event :=
  λ net, assign_href_awaited (getTargetUrl page "language" selectedLanguage net).

Definition versionSelect_change (page : Page) (selectedVersion : string)
  : Network → option string * list Event :=
  λ net, assign_href_awaited (getTargetUrl page "version" selectedVersion net).

(** The listener of the selector of an axis. *)
Definition select_change (a : Axis)
  : Page → string → Network → option string * list Event :=
  match a with
  | Language => languageSelect_change
  | Version => versionSelect_change
  end.

(** ** Further vocabulary *)

Definition is_fetch (e : Event) : bool :=
  match e with EvFetch _ _ => true | _ => false end.

Definition is_log (e : Event) : bool :=
  match e with EvWarn _ | EvError _ => true | _ => false end.

(** The header shows the icon alone exactly when the label is hidden. *)
Definition header_mirrors_label (w : Widget) : Prop :=
  ClassList.contains "ltd-icon-only" (header w)
  = ClassList.contains "hidden" (label w).

(** The widget after the first click on the label, and after the first
    click on the icon. *)
Definition expanded : Widget := click OnLabel initial.
Definition icon_only : Widget := click OnIcon initial.

(** The page [served_page] leads to when Chinese is selected. *)
Definition served_page_zh : Page := {|
  location_href := "https://docs.example.org/zh-cn/latest/guide.html";
  location_pathname := "/zh-cn/latest/guide.html";
  location_origin := location_origin served_page;
  currentScript_src := currentScript_src served_page;
  CURRENT_LANGUAGE := "zh-cn";
  CURRENT_VERSION := CURRENT_VERSION served_page;
  CONFIG_LANGUAGES := CONFIG_LANGUAGES served_page;
  CONFIG_VERSIONS := CONFIG_VERSIONS served_page;
  CONFIG_PROJECTS := CONFIG_PROJECTS served_page
|}.

(** A page that carries the script inline, so that
    [document.currentScript.src] is the empty string, and whose language
    list holds nothing but a line break. *)
Definition bare_page : Page := {|
  location_href := location_href served_page;
  location_pathname := location_pathname served_page;
  location_origin := location_origin served_page;
  currentScript_src := "";
  CURRENT_LANGUAGE := CURRENT_LANGUAGE served_page;
  CURRENT_VERSION := CURRENT_VERSION served_page;
  CONFIG_LANGUAGES := [("newline", "")];
  CONFIG_VERSIONS := CONFIG_VERSIONS served_page;
  CONFIG_PROJECTS := CONFIG_PROJECTS served_page
|}.

(** * Properties *)

(** ** Strings *)

Example replace_first_only :
  replace "/en/a/en/b" "/en/" "/zh/" = "/zh/a/en/b".
Proof. vm_compute. reflexivity. Qed.

Example replace_reference :
  replace "/en/x" "/en/" "/$&/" = "//en//x".
Proof. vm_compute. reflexivity. Qed.

Example lastIndexOf_ex :
  lastIndexOf "https://h/_static/ltd-flyout.js" "/" = 17%Z
  ∧ lastIndexOf "flyout.js" "/" = (-1)%Z
  ∧ substring "flyout.js" 0 (-1) = "".
Proof. vm_compute. done. Qed.

Section StringFacts.

Implicit Types s p pre post r : string.

Lemma app_nil_r s : s +:+ "" = s.
Proof. induction s as [|a s IH]; simpl; [done | by rewrite IH]. Qed.

Lemma app_assoc s p r : (s +:+ p) +:+ r = s +:+ p +:+ r.
Proof. induction s as [|a s IH]; simpl; [done | by rewrite IH]. Qed.

Lemma len_app s p : len (s +:+ p) = len s + len p.
Proof. induction s as [|a s IH]; simpl; [done | by rewrite IH]. Qed.

Lemma take_app_len pre r : take (len pre) (pre +:+ r) = pre.
Proof. induction pre as [|a pre IH]; simpl; [by destruct r | by rewrite IH]. Qed.

Lemma drop_app_len pre n r : drop (len pre + n) (pre +:+ r) = drop n r.
Proof. induction pre as [|a pre IH]; simpl; done. Qed.

Lemma drop_len p r : drop (len p) (p +:+ r) = r.
Proof.
  replace (len p) with (len p + 0) by lia.
  rewrite drop_app_len. by destruct r.
Qed.

Lemma startsWith_spec s p : startsWith s p = true ↔ ∃ r, s = p +:+ r.
Proof.
  revert s. induction p as [|a p IH]; intros s; simpl.
  - split; [eauto | done].
  - destruct s as [|b s].
    + split; [done | by intros [r ?]].
    + destruct (Ascii.eqb_spec a b) as [->|Hne].
      * rewrite IH. split; intros [r Hr]; exists r; congruence.
      * split; [done | intros [r Hr]; congruence].
Qed.

Lemma indexOf_Some s p n :
  indexOf s p = Some n →
  ∃ pre post, leftmost s p pre post ∧ len pre = n.
Proof.
  revert n. induction s as [|a s IH]; intros n; simpl.
  - destruct (startsWith "" p) eqn:Hsw; [|done].
    intros [= <-]. apply startsWith_spec in Hsw as [r Hr].
    exists "", r. repeat split; [done | simpl; lia].
  - destruct (startsWith (String a s) p) eqn:Hsw.
    + intros [= <-]. apply startsWith_spec in Hsw as [r Hr].
      exists "", r. repeat split; [done | simpl; lia].
    + destruct (indexOf s p) as [m|] eqn:Hm; [|done].
      intros [= <-]. destruct (IH m eq_refl) as (pre & post & [Ho Hmin] & Hl).
      exists (String a pre), post. repeat split.
      * unfold occurrence in *. simpl. by rewrite <- Ho.
      * intros [|a' pre'] post' Ho'; unfold occurrence in Ho'; simpl in Ho'.
        -- assert (startsWith (String a s) p = true) as Hc
             by (apply startsWith_spec; eauto).
           congruence.
        -- injection Ho' as -> Hs. apply Hmin in Hs. simpl. lia.
      * simpl. by rewrite Hl.
Qed.

Lemma indexOf_None s p : indexOf s p = None → ¬ contains s p.
Proof.
  induction s as [|a s IH]; simpl.
  - destruct (startsWith "" p) eqn:Hsw; [done|].
    intros _ ([|a' pre] & post & Ho); unfold occurrence in Ho; simpl in Ho;
      [|done].
    assert (startsWith "" p = true) by (apply startsWith_spec; eauto).
    congruence.
  - destruct (startsWith (String a s) p) eqn:Hsw; [done|].
    destruct (indexOf s p) eqn:Hm; [done|].
    intros _ ([|a' pre] & post & Ho); unfold occurrence in Ho; simpl in Ho.
    + assert (startsWith (String a s) p = true)
        by (apply startsWith_spec; eauto).
      congruence.
    + injection Ho as -> Hs. apply IH; [done|]. by exists pre, post.
Qed.

Lemma indexOf_contains s p : contains s p → ∃ n, indexOf s p = Some n.
Proof.
  intros Hc. destruct (indexOf s p) as [n|] eqn:Hn; [eauto|].
  by apply indexOf_None in Hn.
Qed.

Lemma replace_absent s p r : ¬ contains s p → replace s p r = s.
Proof.
  intros Hc. unfold replace. destruct (indexOf s p) as [n|] eqn:Hn; [|done].
  destruct (indexOf_Some _ _ _ Hn) as (pre & post & [Ho _] & _).
  destruct Hc. by exists pre, post.
Qed.

Lemma replace_leftmost s p r :
  contains s p →
  ∃ pre post,
    leftmost s p pre post
    ∧ replace s p r = pre +:+ GetSubstitution p pre post r +:+ post.
Proof.
  intros [n Hn]%indexOf_contains. unfold replace. rewrite Hn.
  destruct (indexOf_Some _ _ _ Hn) as (pre & post & [Ho Hmin] & <-).
  exists pre, post. split; [done|].
  unfold occurrence in Ho. clear Hn Hmin. subst s.
  by rewrite take_app_len, drop_app_len, drop_len.
Qed.

Lemma GetSubstitution_literal matched pre post template :
  has_reference template = false →
  GetSubstitution matched pre post template = template.
Proof.
  induction template as [|a tl IH]; simpl; [done|].
  intros [Hhd Htl]%orb_false_elim. rewrite (IH Htl).
  destruct (Ascii.eqb a "$"); [|done].
  destruct tl as [|c rest]; [done|]. simpl in Hhd.
  apply orb_false_elim in Hhd as [Hhd H4].
  apply orb_false_elim in Hhd as [Hhd H3].
  apply orb_false_elim in Hhd as [H1 H2].
  by rewrite H1, H2, H3, H4.
Qed.

Lemma has_reference_snoc s :
  has_reference s = false → has_reference (s +:+ "/") = false.
Proof.
  induction s as [|a tl IH]; [done|].
  simpl. intros [Hhd Htl]%orb_false_elim. rewrite (IH Htl), orb_false_r.
  destruct (Ascii.eqb a "$"); [|done].
  destruct tl as [|c rest]; done.
Qed.

Lemma lastIndexOf_absent i s :
  ¬ contains s "/" → lastIndexOf_from i s "/" = (-1)%Z.
Proof.
  revert i. induction s as [|a s IH]; intros i Hc; [done|].
  cbn [lastIndexOf_from]. rewrite IH.
  - destruct (startsWith (String a s) "/") eqn:Hsw; [|done].
    apply startsWith_spec in Hsw as [r Hr]. destruct Hc. by exists "", r.
  - intros (pre & post & Ho). apply Hc. exists (String a pre), post.
    unfold occurrence in *. by rewrite Ho.
Qed.

Lemma lastIndexOf_last_separator i dir file :
  (0 ≤ i)%Z → ¬ contains file "/" →
  lastIndexOf_from i (dir +:+ "/" +:+ file) "/" = (i + Z.of_nat (len dir))%Z.
Proof.
  revert i. induction dir as [|a dir IH]; intros i Hi Hc.
  - change ("" +:+ "/" +:+ file) with (String "/" file).
    cbn [lastIndexOf_from]. rewrite lastIndexOf_absent by done.
    simpl. lia.
  - change (String a dir +:+ "/" +:+ file)
      with (String a (dir +:+ "/" +:+ file)).
    cbn [lastIndexOf_from]. rewrite IH by (done || lia).
    destruct (Z.leb_spec 0 (i + 1 + Z.of_nat (len dir))); [|lia].
    simpl len. lia.
Qed.

Lemma substring_prefix pre r :
  substring (pre +:+ r) 0 (Z.of_nat (len pre)) = pre.
Proof.
  unfold substring. rewrite len_app.
  replace (Z.min (Z.max 0 0) _) with 0%Z by lia.
  replace (Z.min (Z.max (Z.of_nat (len pre)) 0) _)
    with (Z.of_nat (len pre)) by lia.
  replace (Z.min 0 (Z.of_nat (len pre))) with 0%Z by lia.
  replace (Z.max 0 (Z.of_nat (len pre))) with (Z.of_nat (len pre)) by lia.
  rewrite Z.sub_0_r, Nat2Z.id. simpl. destruct (pre +:+ r) eqn:E.
  - destruct pre; [done | discriminate E].
  - rewrite <- E. apply take_app_len.
Qed.

Lemma has_reference_segment s :
  has_reference s = false → has_reference ("/" +:+ s +:+ "/") = false.
Proof. intros H. simpl. by apply has_reference_snoc. Qed.

End StringFacts.

(** ** The URL resolver *)

Section ResolverFacts.

Variable page : Page.
Implicit Types (a : Axis) (type selected : string) (net : Network).

Lemma targetPath_axis a selected :
  targetPath page (axis_type a) selected
  = Some (replace (location_pathname page)
            ("/" +:+ current_code page a +:+ "/")
            ("/" +:+ selected +:+ "/")).
Proof. by destruct a. Qed.

Lemma targetUrl_prefix type selected :
  targetUrl page type selected
  = url_prefix page +:+ to_string (targetPath page type selected).
Proof. unfold targetUrl, url_prefix. by destruct (_IS_LOCAL page). Qed.

Lemma fallbackUrl_axis a selected :
  fallbackUrl page (axis_type a) selected = fallback_shape page a selected.
Proof.
  destruct a; unfold fallbackUrl, fallback_shape; simpl;
    by rewrite !app_assoc.
Qed.

(** [_FLYOUT_JS_DIR] is the directory the script was loaded from. *)
Lemma _FLYOUT_JS_DIR_directory dir file :
  currentScript_src page = dir +:+ "/" +:+ file →
  ¬ contains file "/" →
  _FLYOUT_JS_DIR page = dir.
Proof.
  intros Hsrc Hfile. unfold _FLYOUT_JS_DIR, _FLYOUT_JS_FILE, lastIndexOf.
  rewrite Hsrc, lastIndexOf_last_separator by done.
  apply substring_prefix.
Qed.

Lemma ok_2xx status : ok status = true ↔ 200 ≤ status ≤ 299.
Proof.
  unfold ok. rewrite andb_true_iff, !Nat.leb_le. done.
Qed.

(** The body of [getTargetUrl], run against a network. *)
Lemma getTargetUrl_run type selected net :
  getTargetUrl page type selected net =
    let url := targetUrl page type selected in
    if _IS_LOCAL page then (Resolved (Some url), [])
    else
      match net url with
      | Fulfilled status =>
          if ok status
          then (Resolved (Some url), [EvFetch url "HEAD"; EvAwait])
          else (Resolved (Some (fallbackUrl page type selected)),
                [EvFetch url "HEAD"; EvAwait;
                 EvWarn ["Target URL does not exist, using fallback URL:";
                         url]])
      | Rejected reason =>
          (Resolved (Some (fallbackUrl page type selected)),
           [EvFetch url "HEAD"; EvAwait;
            EvError ["Error checking target URL:"; reason]])
      end.
Proof.
  unfold getTargetUrl, async_function, try_catch, await_fetch, return_,
    console_warn, console_error, mbind, Async_bind.
  destruct (_IS_LOCAL page); [done|]. simpl.
  destruct (net (targetUrl page type selected)) as [status|reason];
    [destruct (ok status)|]; done.
Qed.

Lemma getTargetUrl_resolves type selected net :
  ∃ url trace,
    getTargetUrl page type selected net = (Resolved (Some url), trace).
Proof.
  rewrite getTargetUrl_run. simpl.
  destruct (_IS_LOCAL page); [eauto|].
  destruct (net _) as [status|reason]; [destruct (ok status)|]; eauto.
Qed.

End ResolverFacts.

(** Two selections on a served page and one on a local page. *)

Example scenario_language :
  targetPath served_page "language" "zh-cn" = Some "/zh-cn/latest/guide.html".
Proof. vm_compute. reflexivity. Qed.

Example scenario_version_probe_fails :
  getTargetUrl served_page "version" "3.9" (always (Rejected "TypeError"))
  = (Resolved (Some "https://docs.example.org/_static/en-us/3.9/index.html"),
     [EvFetch "https://docs.example.org/en-us/3.9/guide.html" "HEAD";
      EvAwait;
      EvError ["Error checking target URL:"; "TypeError"]]).
Proof. vm_compute. reflexivity. Qed.

Example scenario_local :
  getTargetUrl local_page "language" "zh-tw" (always (Fulfilled 200))
  = (Resolved (Some "file:///home/me/site/zh-tw/latest/guide.html"), []).
Proof. vm_compute. reflexivity. Qed.

(** C1, as amended: for either axis and a selected code that holds none of
    the references [$$], [$&], [$`], [$'], when the path contains the current
    code between separators the substitution step rewrites the leftmost
    such occurrence into the selected code between separators and keeps
    everything before and after it. *)
Theorem targetPath_replaces_leftmost_segment
    (page : Page) (a : Axis) (selected : string) :
  has_reference selected = false →
  contains (location_pathname page) ("/" +:+ current_code page a +:+ "/") →
  ∃ pre post,
    leftmost (location_pathname page)
      ("/" +:+ current_code page a +:+ "/") pre post
    ∧ targetPath page (axis_type a) selected
      = Some (pre +:+ ("/" +:+ selected +:+ "/") +:+ post).
Proof.
  intros Href Hc. rewrite targetPath_axis.
  destruct (replace_leftmost _ _ ("/" +:+ selected +:+ "/") Hc)
    as (pre & post & Hl & ->).
  exists pre, post. split; [done|].
  by rewrite GetSubstitution_literal by by apply has_reference_segment.
Qed.

Lemma targetPath_replaces_leftmost_segment_witness :
  has_reference "zh-cn" = false
  ∧ contains (location_pathname served_page)
      ("/" +:+ current_code served_page Language +:+ "/")
  ∧ ∃ pre post,
      leftmost (location_pathname served_page)
        ("/" +:+ current_code served_page Language +:+ "/") pre post
      ∧ targetPath served_page (axis_type Language) "zh-cn"
        = Some (pre +:+ ("/" +:+ "zh-cn" +:+ "/") +:+ post).
Proof.
  assert (contains (location_pathname served_page)
            ("/" +:+ current_code served_page Language +:+ "/")) as Hc.
  { exists "", "latest/guide.html". reflexivity. }
  split; [reflexivity|]. split; [exact Hc|].
  apply (targetPath_replaces_leftmost_segment served_page Language "zh-cn");
    [reflexivity | exact Hc].
Defined.

(** C1, as stated, fails: with the selected code [$&] the path does contain
    the current language between separators, yet no occurrence of it has
    been exchanged for the selected code. *)
Lemma targetPath_reference_code_not_substituted :
  contains (location_pathname served_page)
    ("/" +:+ current_code served_page Language +:+ "/")
  ∧ targetPath served_page (axis_type Language) "$&"
    = Some "//en-us//latest/guide.html"
  ∧ ¬ replaces_some_segment served_page Language "$&".
Proof.
  split; [by exists "", "latest/guide.html"|].
  assert (targetPath served_page (axis_type Language) "$&"
          = Some "//en-us//latest/guide.html") as Hrun by (by vm_compute).
  split; [exact Hrun|].
  intros (pre & post & Ho & Ht). rewrite Hrun in Ht.
  unfold occurrence in Ho. simpl in Ho.
  injection Ht as Ht.
  apply (f_equal len) in Ho, Ht.
  rewrite len_app in Ho, Ht. simpl in Ho, Ht. lia.
Qed.

(** Only the leftmost occurrence is rewritten: a second occurrence of the
    same segment stays, also when it is the version segment of a page whose
    language and version codes coincide and the version is being changed. *)
Example targetPath_coinciding_codes :
  targetPath twin_page (axis_type Version) "v2" = Some "/v2/v1/guide.html"
  ∧ ¬ replaces_each_segment twin_page Version "v2".
Proof.
  split; [by vm_compute|].
  intros H. specialize (H "/v1" "guide.html" eq_refl).
  vm_compute in H. discriminate H.
Qed.

(** C5: when the path does not contain the axis's current code between
    separators, the substitution step leaves the path as it is; the
    resolver goes on with that path behind the local-file prefix or the
    origin, returns it at once on a local page, probes it on a served page,
    and nothing is thrown or logged on account of the miss. *)
Theorem targetPath_absent_segment_unchanged
    (page : Page) (a : Axis) (selected : string) (net : Network) :
  ¬ contains (location_pathname page) ("/" +:+ current_code page a +:+ "/") →
  targetPath page (axis_type a) selected = Some (location_pathname page)
  ∧ targetUrl page (axis_type a) selected
    = url_prefix page +:+ location_pathname page
  ∧ (_IS_LOCAL page = true →
     getTargetUrl page (axis_type a) selected net
     = (Resolved (Some ("file://" +:+ location_pathname page)), []))
  ∧ (_IS_LOCAL page = false →
     ∃ url log,
       getTargetUrl page (axis_type a) selected net
       = (Resolved (Some url),
          EvFetch (_SERVER_ROOT page +:+ location_pathname page) "HEAD"
            :: EvAwait :: log)
       ∧ ∀ status,
           net (_SERVER_ROOT page +:+ location_pathname page)
           = Fulfilled status →
           ok status = true →
           url = _SERVER_ROOT page +:+ location_pathname page ∧ log = []).
Proof.
  intros Hc.
  assert (targetPath page (axis_type a) selected
          = Some (location_pathname page)) as Hp
    by (by rewrite targetPath_axis, replace_absent).
  assert (targetUrl page (axis_type a) selected
          = url_prefix page +:+ location_pathname page) as Hu
    by (by rewrite targetUrl_prefix, Hp).
  split; [done|]. split; [done|].
  rewrite getTargetUrl_run, Hu. unfold url_prefix. simpl.
  split; intros ->; [done|].
  destruct (net _) as [status|reason] eqn:Hnet;
    [destruct (ok status) eqn:Hok|]; eexists _, _;
    (split; [reflexivity|]); intros st Hst Hok'; simplify_eq;
    first [done | congruence].
Qed.

Lemma targetPath_absent_segment_unchanged_witness :
  ¬ contains (location_pathname landing_page)
      ("/" +:+ current_code landing_page Version +:+ "/")
  ∧ targetPath landing_page (axis_type Version) "3.9"
    = Some (location_pathname landing_page).
Proof.
  assert (¬ contains (location_pathname landing_page)
            ("/" +:+ current_code landing_page Version +:+ "/")) as Hc.
  { apply indexOf_None. reflexivity. }
  split; [exact Hc|].
  apply (targetPath_absent_segment_unchanged
           landing_page Version "3.9" (always (Fulfilled 200)) Hc).
Defined.

(** C3: on a page opened from the file system, for either axis and any
    selected code, [getTargetUrl] resolves with ["file://"] followed by the
    substituted path, whatever the network would answer, and its trace is
    empty: no probe is issued and the function never suspends. *)
Theorem getTargetUrl_local
    (page : Page) (a : Axis) (selected : string) (net : Network) :
  _IS_LOCAL page = true →
  ∃ path,
    targetPath page (axis_type a) selected = Some path
    ∧ getTargetUrl page (axis_type a) selected net
      = (Resolved (Some ("file://" +:+ path)), []).
Proof.
  intros Hlocal. eexists. split; [apply targetPath_axis|].
  rewrite getTargetUrl_run. simpl. rewrite Hlocal.
  by rewrite targetUrl_prefix, targetPath_axis; unfold url_prefix;
    rewrite Hlocal.
Qed.

Lemma getTargetUrl_local_witness :
  _IS_LOCAL local_page = true
  ∧ ∃ path,
      targetPath local_page (axis_type Version) "3.9" = Some path
      ∧ getTargetUrl local_page (axis_type Version) "3.9"
          (always (Rejected "offline"))
        = (Resolved (Some ("file://" +:+ path)), []).
Proof.
  split; [reflexivity|].
  apply (getTargetUrl_local local_page Version "3.9"
           (always (Rejected "offline"))).
  reflexivity.
Defined.

(** C2: on a served page, for either axis and any selected code, the
    resolver probes the origin followed by the substituted path; a 2xx
    status makes it resolve with the probed URL, while any other status and
    a rejected probe both make it resolve with
    [<asset-dir>/<language>/<version>/index.html], the requested axis
    holding the selected code and the other axis its current code. *)
Theorem getTargetUrl_served
    (page : Page) (a : Axis) (selected : string) (net : Network) :
  _IS_LOCAL page = false →
  ∃ path,
    targetPath page (axis_type a) selected = Some path
    ∧ let probed := _SERVER_ROOT page +:+ path in
      let result := (getTargetUrl page (axis_type a) selected net).1 in
      (∀ status, net probed = Fulfilled status → 200 ≤ status ≤ 299 →
         result = Resolved (Some probed))
      ∧ (∀ status, net probed = Fulfilled status → ¬ 200 ≤ status ≤ 299 →
         result = Resolved (Some (fallback_shape page a selected)))
      ∧ (∀ reason, net probed = Rejected reason →
         result = Resolved (Some (fallback_shape page a selected))).
Proof.
  intros Hserved. eexists. split; [apply targetPath_axis|].
  cbv zeta. rewrite getTargetUrl_run, fallbackUrl_axis. cbv zeta.
  rewrite Hserved, targetUrl_prefix, targetPath_axis. unfold url_prefix.
  rewrite Hserved. cbn [to_string].
  repeat split.
  - intros status Hnet Hok%ok_2xx. by rewrite Hnet, Hok.
  - intros status Hnet Hok. rewrite Hnet.
    destruct (ok status) eqn:E; [|done]. by apply ok_2xx in E.
  - intros reason Hnet. by rewrite Hnet.
Qed.

Lemma getTargetUrl_served_witness :
  _IS_LOCAL served_page = false
  ∧ (getTargetUrl served_page (axis_type Version) "3.9"
       (always (Fulfilled 404))).1
    = Resolved (Some "https://docs.example.org/_static/en-us/3.9/index.html").
Proof.
  split; [reflexivity|].
  destruct (getTargetUrl_served served_page Version "3.9"
              (always (Fulfilled 404)) eq_refl)
    as (path & _ & _ & Hnon2xx & _).
  apply (Hnon2xx 404); [reflexivity | lia].
Defined.

(** C4: for either axis, any selected code and any answer of the network,
    [getTargetUrl] resolves with a URL string and is never rejected; when
    the probe of a served page is rejected, the rejection is logged and the
    fallback URL is the result. *)
Theorem getTargetUrl_never_throws
    (page : Page) (a : Axis) (selected : string) (net : Network) :
  ∃ url trace,
    getTargetUrl page (axis_type a) selected net = (Resolved (Some url), trace)
    ∧ ∀ reason,
        _IS_LOCAL page = false →
        net (targetUrl page (axis_type a) selected) = Rejected reason →
        url = fallback_shape page a selected
        ∧ EvError ["Error checking target URL:"; reason] ∈ trace.
Proof.
  rewrite getTargetUrl_run, fallbackUrl_axis. cbv zeta.
  destruct (_IS_LOCAL page); [by eexists _, _|].
  destruct (net _) as [status|reason]; [destruct (ok status)|];
    eexists _, _; (split; [reflexivity|]); intros r _ [= <-].
  split; [done|]. set_solver.
Qed.

(** C10: when [type] is neither ["language"] nor ["version"] the
    substituted path stays undefined and the URL is the local-file prefix
    or the origin followed by the text [undefined]; the resolver still
    resolves: at once on a local page, and on a served page with that URL
    if its probe succeeds and otherwise with
    [<asset-dir>/<current-language>/<current-version>/index.html]. *)
Theorem getTargetUrl_other_type
    (page : Page) (type selected : string) (net : Network) :
  type ≠ "language" → type ≠ "version" →
  targetPath page type selected = None
  ∧ targetUrl page type selected = url_prefix page +:+ "undefined"
  ∧ (_IS_LOCAL page = true →
     getTargetUrl page type selected net
     = (Resolved (Some "file://undefined"), []))
  ∧ (_IS_LOCAL page = false →
     let probed := _SERVER_ROOT page +:+ "undefined" in
     let fallback :=
       _FLYOUT_JS_DIR page +:+ "/" +:+ CURRENT_LANGUAGE page +:+ "/"
         +:+ CURRENT_VERSION page +:+ "/index.html" in
     ∃ log,
       getTargetUrl page type selected net
       = (Resolved
            (Some match net probed with
                  | Fulfilled status => if ok status then probed else fallback
                  | Rejected _ => fallback
                  end),
          EvFetch probed "HEAD" :: EvAwait :: log)).
Proof.
  intros Hl Hv.
  assert (targetPath page type selected = None) as Hp.
  { unfold targetPath. by rewrite !decide_False. }
  assert (targetUrl page type selected = url_prefix page +:+ "undefined")
    as Hu by (by rewrite targetUrl_prefix, Hp).
  split; [done|]. split; [done|].
  rewrite getTargetUrl_run, Hu. unfold url_prefix, fallbackUrl.
  rewrite !decide_False by done. cbv zeta.
  split; intros ->; [done|]. rewrite !app_assoc.
  destruct (net _) as [status|reason]; [destruct (ok status)|]; eauto.
Qed.

Lemma getTargetUrl_other_type_witness :
  "theme" ≠ "language" ∧ "theme" ≠ "version"
  ∧ targetUrl served_page "theme" "dark" = "https://docs.example.orgundefined"
  ∧ (getTargetUrl served_page "theme" "dark" (always (Fulfilled 404))).1
    = Resolved
        (Some "https://docs.example.org/_static/en-us/latest/index.html").
Proof.
  assert ("theme" ≠ "language") as Hl by discriminate.
  assert ("theme" ≠ "version") as Hv by discriminate.
  split; [exact Hl|]. split; [exact Hv|].
  destruct (getTargetUrl_other_type served_page "theme" "dark"
              (always (Fulfilled 404)) Hl Hv) as (_ & Hu & _ & Hserved).
  split; [rewrite Hu; reflexivity|].
  destruct (Hserved eq_refl) as [log Hrun].
  rewrite Hrun. reflexivity.
Defined.

(** ** Rendering *)

Section PresenterFacts.

Variable page : Page.

(** The selectors' markup, spelled as the template literal of the
    script: filter, map to text, join. *)
Lemma languageOptions_template :
  languageOptions page
  = join ((λ '(code, name),
            "<option value=" +:+ dq +:+ code +:+ dq +:+ " "
              +:+ (if bool_decide (code = _CURRENT_LANGUAGE page)
                   then "selected" else "")
              +:+ ">" +:+ code +:+ " : " +:+ name +:+ "</option>")
          <$> filter (λ lang, lang.1 ≠ "newline") (_CONFIG_LANGUAGES page)).
Proof.
  unfold languageOptions, languageRows. rewrite <- list_fmap_compose.
  f_equal. apply list_fmap_ext. by intros _ [code name] _.
Qed.

Lemma sortedProjects_template :
  sortedProjects page
  = join ((λ '(project, link),
            if decide (project = "newline")
            then "<dd class=" +:+ dq +:+ "newline" +:+ dq +:+ "></dd>"
            else "<dd class=" +:+ dq +:+ "options" +:+ dq +:+ "><a href="
                   +:+ dq +:+ link +:+ dq +:+ ">" +:+ project
                   +:+ "</a></dd>")
          <$> _CONFIG_PROJECTS page).
Proof.
  unfold sortedProjects, projectRows. rewrite <- list_fmap_compose.
  f_equal. apply list_fmap_ext. intros _ [project link] _. simpl.
  by destruct (decide (project = "newline")).
Qed.

Lemma versionOptions_template :
  versionOptions page
  = join ((λ '(code, name),
            "<option value=" +:+ dq +:+ code +:+ dq +:+ " "
              +:+ (if bool_decide (code = _CURRENT_VERSION page)
                   then "selected" else "")
              +:+ ">" +:+ code +:+ " : " +:+ name +:+ "</option>")
          <$> filter (λ version, version.1 ≠ "newline")
                (_CONFIG_VERSIONS page)).
Proof.
  unfold versionOptions, versionRows. rewrite <- list_fmap_compose.
  f_equal. apply list_fmap_ext. by intros _ [code name] _.
Qed.

End PresenterFacts.

Section MarkupFacts.

Lemma join_app (parts parts' : list string) :
  join (parts ++ parts') = join parts +:+ join parts'.
Proof.
  induction parts as [|part parts IH]; [done|].
  simpl. unfold join in *. simpl. by rewrite IH, app_assoc.
Qed.

Lemma selectOptions_app current (before after : list (string * string)) :
  selectOptions current (before ++ after)
  = selectOptions current before +:+ selectOptions current after.
Proof. unfold selectOptions. by rewrite filter_app, fmap_app, join_app. Qed.

Lemma selectOptions_sentinel current name :
  selectOptions current [("newline", name)] = "".
Proof. done. Qed.

Lemma selectOptions_entry current code name :
  code ≠ "newline" →
  selectOptions current [(code, name)]
  = "<option value=" +:+ dq +:+ code +:+ dq +:+ " "
      +:+ (if bool_decide (code = current) then "selected" else "")
      +:+ ">" +:+ code +:+ " : " +:+ name +:+ "</option>".
Proof.
  intros Hcode. unfold selectOptions.
  rewrite filter_cons. simpl. rewrite decide_True by done.
  unfold join. simpl. by rewrite app_nil_r.
Qed.

Lemma projectLinks_app (before after : list (string * string)) :
  projectLinks (before ++ after)
  = projectLinks before +:+ projectLinks after.
Proof. unfold projectLinks. by rewrite fmap_app, join_app. Qed.

Lemma projectLinks_entry project link :
  project ≠ "newline" →
  projectLinks [(project, link)]
  = "<dd class=" +:+ dq +:+ "options" +:+ dq +:+ "><a href=" +:+ dq
      +:+ link +:+ dq +:+ ">" +:+ project +:+ "</a></dd>".
Proof.
  intros Hproject. unfold projectLinks, join. simpl.
  rewrite decide_False by done. by rewrite app_nil_r.
Qed.

End MarkupFacts.

(** Codes, names and links go into the markup as they are: a code that
    holds a double quote closes the [value] attribute early. *)
Example selectOptions_verbatim :
  selectOptions "en" [("fr" +:+ dq +:+ " selected x=" +:+ dq, "French")]
  = "<option value=" +:+ dq +:+ "fr" +:+ dq +:+ " selected x=" +:+ dq +:+ dq
      +:+ " >fr" +:+ dq +:+ " selected x=" +:+ dq +:+ " : French</option>".
Proof. by vm_compute. Qed.

(** C6: whatever the configuration, the markup of the language and version
    selectors and of the project list is put together entry by entry, in
    configuration order.  In a selector an entry whose code is ["newline"]
    contributes nothing, and any other entry contributes exactly one
    [<option>] whose value is its code and which carries [selected]
    exactly when its code is the current one.  In the project list an entry
    whose label is ["newline"] contributes the empty line-break row, which
    holds no link, and any other entry contributes exactly one link row. *)
Theorem createFlyout_sentinels_and_order (page : Page) :
  languageOptions page
  = selectOptions (CURRENT_LANGUAGE page) (CONFIG_LANGUAGES page)
  ∧ versionOptions page
    = selectOptions (CURRENT_VERSION page) (CONFIG_VERSIONS page)
  ∧ sortedProjects page = projectLinks (CONFIG_PROJECTS page)
  ∧ (∀ current before after,
       selectOptions current (before ++ after)
       = selectOptions current before +:+ selectOptions current after)
  ∧ (∀ current name, selectOptions current [("newline", name)] = "")
  ∧ (∀ current code name,
       code ≠ "newline" →
       selectOptions current [(code, name)]
       = "<option value=" +:+ dq +:+ code +:+ dq +:+ " "
           +:+ (if bool_decide (code = current) then "selected" else "")
           +:+ ">" +:+ code +:+ " : " +:+ name +:+ "</option>")
  ∧ (∀ before after,
       projectLinks (before ++ after)
       = projectLinks before +:+ projectLinks after)
  ∧ (∀ link,
       projectLinks [("newline", link)]
       = "<dd class=" +:+ dq +:+ "newline" +:+ dq +:+ "></dd>")
  ∧ (∀ project link,
       project ≠ "newline" →
       projectLinks [(project, link)]
       = "<dd class=" +:+ dq +:+ "options" +:+ dq +:+ "><a href=" +:+ dq
           +:+ link +:+ dq +:+ ">" +:+ project +:+ "</a></dd>").
Proof.
  split; [apply languageOptions_template|].
  split; [apply versionOptions_template|].
  split; [apply sortedProjects_template|].
  split; [apply selectOptions_app|].
  split; [apply selectOptions_sentinel|].
  split; [apply selectOptions_entry|].
  split; [apply projectLinks_app|].
  split; [done | apply projectLinks_entry].
Qed.

(** ** Disclosure state *)

Section ClassListFacts.

Implicit Types (c : string) (l : ClassList.t).

Lemma contains_true c l : ClassList.contains c l = true ↔ c ∈ l.
Proof. unfold ClassList.contains. apply bool_decide_eq_true. Qed.

Lemma contains_false c l : ClassList.contains c l = false ↔ c ∉ l.
Proof. unfold ClassList.contains. apply bool_decide_eq_false. Qed.

Lemma contains_add c l : ClassList.contains c (ClassList.add c l) = true.
Proof.
  apply contains_true. unfold ClassList.add.
  by apply elem_of_union_l, elem_of_singleton.
Qed.

Lemma contains_remove c l :
  ClassList.contains c (ClassList.remove c l) = false.
Proof.
  apply contains_false. unfold ClassList.remove.
  rewrite elem_of_difference, elem_of_singleton. tauto.
Qed.

Lemma add_present c l : c ∈ l → ClassList.add c l = l.
Proof.
  intros Hc. unfold ClassList.add.
  by apply subseteq_union_1_L, singleton_subseteq_l.
Qed.

Lemma add_add c l : ClassList.add c (ClassList.add c l) = ClassList.add c l.
Proof. apply add_present, contains_true, contains_add. Qed.

Lemma contains_toggle_force c force l :
  ClassList.contains c (ClassList.toggle_force c force l) = force.
Proof. destruct force; [apply contains_add | apply contains_remove]. Qed.

Lemma toggle_flips c l :
  ClassList.contains c (ClassList.toggle c l).1
  = negb (ClassList.contains c l)
  ∧ (ClassList.toggle c l).2 = negb (ClassList.contains c l).
Proof.
  unfold ClassList.toggle. destruct (ClassList.contains c l) eqn:E; simpl.
  - by rewrite contains_remove.
  - by rewrite contains_add.
Qed.

End ClassListFacts.

Section WidgetFacts.

Implicit Types (w : Widget) (target : Target).

Lemma all_closed (ds : list ClassList.t) :
  Forall (λ divider, dividerVisible divider = false)
    (ClassList.add "ltd-flyout-closed" <$> ds).
Proof.
  apply Forall_fmap, Forall_true. intros d. simpl.
  unfold dividerVisible. by rewrite contains_add.
Qed.

Lemma add_closed_fixed (ds : list ClassList.t) :
  Forall (λ divider, dividerVisible divider = false) ds →
  ClassList.add "ltd-flyout-closed" <$> ds = ds.
Proof.
  induction 1 as [|d ds Hd _ IH]; [done|]. rewrite fmap_cons, IH.
  f_equal. apply add_present, contains_true.
  unfold dividerVisible in Hd. by apply negb_false_iff in Hd.
Qed.

(** What the three listeners do to the two flags and to the dividers. *)
Lemma label_click_flags w :
  contentExpanded (click OnLabel w) = negb (contentExpanded w)
  ∧ label (click OnLabel w) = label w
  ∧ dividers_mirror_content (click OnLabel w).
Proof.
  unfold click, label_listener, contentExpanded, dividers_mirror_content.
  destruct (toggle_flips "ltd-flyout-closed" (content w)) as [Hc Hr].
  destruct (ClassList.toggle "ltd-flyout-closed" (content w))
    as [content' isHidden]. simpl in *. subst isHidden.
  rewrite Hc. repeat split.
  apply Forall_fmap, Forall_true. intros d. simpl.
  unfold dividerVisible, contentExpanded. simpl.
  by rewrite contains_toggle_force, Hc.
Qed.

Lemma icon_click_hides w :
  labelVisible w = true →
  labelVisible (click OnIcon w) = false
  ∧ contentExpanded (click OnIcon w) = false
  ∧ Forall (λ divider, dividerVisible divider = false)
      (dividers (click OnIcon w)).
Proof.
  unfold click, icon_listener, labelVisible, contentExpanded.
  destruct (toggle_flips "hidden" (label w)) as [Hc Hr].
  destruct (ClassList.toggle "hidden" (label w)) as [label' labelHidden].
  simpl in *. intros Hv. apply negb_true_iff in Hv.
  rewrite Hv in Hc, Hr. simpl in *. subst labelHidden. simpl.
  rewrite Hc, contains_add. repeat split. apply all_closed.
Qed.

Lemma icon_click_restores w :
  labelVisible w = false →
  labelVisible (click OnIcon w) = true
  ∧ content (click OnIcon w) = content w
  ∧ dividers (click OnIcon w) = dividers w.
Proof.
  unfold click, icon_listener, labelVisible.
  destruct (toggle_flips "hidden" (label w)) as [Hc Hr].
  destruct (ClassList.toggle "hidden" (label w)) as [label' labelHidden].
  simpl in *. intros Hv. apply negb_false_iff in Hv.
  rewrite Hv in Hc, Hr. simpl in *. subst labelHidden. simpl.
  by rewrite Hc.
Qed.

Lemma outside_click_flags w :
  contentExpanded (click OutsideFlyout w) = false
  ∧ label (click OutsideFlyout w) = label w
  ∧ header (click OutsideFlyout w) = header w
  ∧ Forall (λ divider, dividerVisible divider = false)
      (dividers (click OutsideFlyout w)).
Proof.
  unfold click, document_listener, contentExpanded. simpl.
  rewrite contains_add. repeat split. apply all_closed.
Qed.

Lemma inside_click_nothing w : click ElsewhereInFlyout w = w.
Proof. done. Qed.

Lemma mirror_of_closed w :
  contentExpanded w = false →
  Forall (λ divider, dividerVisible divider = false) (dividers w) →
  dividers_mirror_content w.
Proof. unfold dividers_mirror_content. by intros ->. Qed.

Lemma click_mirror target w :
  dividers_mirror_content w → dividers_mirror_content (click target w).
Proof.
  intros Hm. destruct target.
  - apply label_click_flags.
  - destruct (labelVisible w) eqn:Hv.
    + destruct (icon_click_hides w Hv) as (_ & Hc & Hd).
      by apply mirror_of_closed.
    + destruct (icon_click_restores w Hv) as (_ & Hc & Hd).
      unfold dividers_mirror_content, contentExpanded. by rewrite Hc, Hd.
  - by rewrite inside_click_nothing.
  - destruct (outside_click_flags w) as (Hc & _ & _ & Hd).
    by apply mirror_of_closed.
Qed.

Lemma click_collapsed target w :
  displayed target w →
  collapsed_when_unlabelled w → collapsed_when_unlabelled (click target w).
Proof.
  unfold collapsed_when_unlabelled. intros Hd Hinv. destruct target.
  - simpl in Hd. destruct (label_click_flags w) as (_ & Hl & _).
    unfold labelVisible. rewrite Hl. intros Hv.
    apply negb_false_iff, contains_true in Hv. done.
  - destruct (labelVisible w) eqn:Hv.
    + intros _. by apply icon_click_hides.
    + destruct (icon_click_restores w Hv) as (Hv' & _). congruence.
  - by rewrite inside_click_nothing.
  - intros _. apply outside_click_flags.
Qed.

Lemma reachable_mirror w : reachable w → dividers_mirror_content w.
Proof.
  induction 1 as [|w w' _ IH Hstep].
  - by repeat constructor.
  - destruct Hstep. by apply click_mirror.
Qed.

Lemma reachable_collapsed w : reachable w → collapsed_when_unlabelled w.
Proof.
  induction 1 as [|w w' _ IH Hstep].
  - by intros [=].
  - destruct Hstep. by apply click_collapsed.
Qed.

End WidgetFacts.

Lemma label_displayed_initially : displayed OnLabel initial.
Proof. apply contains_false. by vm_compute. Qed.

Lemma reachable_expanded : reachable (click OnLabel initial).
Proof.
  apply (reachable_step initial); [apply reachable_initial|].
  apply step_click, label_displayed_initially.
Qed.

Example initial_flags :
  contentExpanded initial = false
  ∧ labelVisible initial = true
  ∧ Forall (λ divider, dividerVisible divider = false) (dividers initial).
Proof. repeat constructor. Qed.

Example expanded_flags :
  contentExpanded (click OnLabel initial) = true
  ∧ labelVisible (click OnLabel initial) = true.
Proof. by vm_compute. Qed.

(** The label listener itself does not look at the label: run on a hidden
    label, which no click of a reader can reach, it would expand the
    content. *)
Example label_listener_on_hidden_label :
  let w := (label_listener (click OnIcon initial)).1 in
  labelVisible w = false ∧ contentExpanded w = true.
Proof. by vm_compute. Qed.

(** C7: in every reachable state, a click on the icon while the label is
    visible hides the label and collapses the content and the dividers,
    whether or not the content was expanded; a second click on the icon
    brings the label back and leaves the content collapsed.  So in every
    reachable state, and after every click a reader can make in it, a
    hidden label goes with collapsed content. *)
Theorem icon_click_collapses (w : Widget) :
  reachable w →
  (labelVisible w = true →
     labelVisible (click OnIcon w) = false
     ∧ contentExpanded (click OnIcon w) = false
     ∧ Forall (λ divider, dividerVisible divider = false)
         (dividers (click OnIcon w))
     ∧ labelVisible (click OnIcon (click OnIcon w)) = true
     ∧ contentExpanded (click OnIcon (click OnIcon w)) = false)
  ∧ collapsed_when_unlabelled w
  ∧ ∀ target,
      displayed target w → collapsed_when_unlabelled (click target w).
Proof.
  intros Hr. split; [|split].
  - intros Hv. destruct (icon_click_hides w Hv) as (Hl & Hc & Hd).
    destruct (icon_click_restores _ Hl) as (Hl' & Hc' & _).
    repeat split; try done.
    unfold contentExpanded in *. by rewrite Hc'.
  - by apply reachable_collapsed.
  - intros target Hd. by apply click_collapsed, reachable_collapsed.
Qed.

Lemma icon_click_collapses_witness :
  reachable (click OnLabel initial)
  ∧ contentExpanded (click OnLabel initial) = true
  ∧ labelVisible (click OnIcon (click OnLabel initial)) = false
  ∧ contentExpanded (click OnIcon (click OnLabel initial)) = false
  ∧ contentExpanded (click OnIcon (click OnIcon (click OnLabel initial)))
    = false.
Proof.
  split; [exact reachable_expanded|].
  split; [by vm_compute|].
  destruct (icon_click_collapses (click OnLabel initial) reachable_expanded)
    as (Hicon & _ & _).
  destruct Hicon as (Hl & Hc & _ & _ & Hc'); [by vm_compute|].
  repeat split; assumption.
Defined.

(** C8: in every reachable state, a click outside the widget collapses the
    content and leaves the label (and the header) as they were; applying it
    twice is the same as applying it once, and when the content is already
    collapsed the state does not change at all. *)
Theorem outside_click_idempotent (w : Widget) :
  reachable w →
  contentExpanded (click OutsideFlyout w) = false
  ∧ labelVisible (click OutsideFlyout w) = labelVisible w
  ∧ label (click OutsideFlyout w) = label w
  ∧ header (click OutsideFlyout w) = header w
  ∧ click OutsideFlyout (click OutsideFlyout w) = click OutsideFlyout w
  ∧ (contentExpanded w = false → click OutsideFlyout w = w).
Proof.
  intros Hr. destruct (outside_click_flags w) as (Hc & Hl & Hh & Hd).
  repeat split; try done.
  - unfold click, document_listener. simpl.
    by rewrite add_add, add_closed_fixed by apply all_closed.
  - intros Hcollapsed. pose proof (reachable_mirror w Hr) as Hm.
    unfold dividers_mirror_content in Hm. rewrite Hcollapsed in Hm.
    unfold click, document_listener. simpl.
    rewrite add_closed_fixed by done.
    rewrite add_present; [by destruct w|].
    apply contains_true. unfold contentExpanded in Hcollapsed.
    by apply negb_false_iff in Hcollapsed.
Qed.

Lemma outside_click_idempotent_witness :
  reachable (click OnLabel initial)
  ∧ contentExpanded (click OnLabel initial) = true
  ∧ contentExpanded (click OutsideFlyout (click OnLabel initial)) = false
  ∧ click OutsideFlyout (click OutsideFlyout (click OnLabel initial))
    = click OutsideFlyout (click OnLabel initial).
Proof.
  split; [exact reachable_expanded|].
  split; [by vm_compute|].
  destruct (outside_click_idempotent (click OnLabel initial)
              reachable_expanded) as (Hc & _ & _ & _ & Hi & _).
  split; assumption.
Defined.

(** C9: the dividers are shown exactly when the content panel is.  Both
    start with the closed marker, each click sets the dividers and the
    content to the same value or leaves both alone, so the equality holds
    in every reachable state and after any click in it. *)
Theorem dividers_follow_content (w : Widget) :
  reachable w →
  dividers_mirror_content w
  ∧ ∀ target, dividers_mirror_content (click target w).
Proof.
  intros Hr. pose proof (reachable_mirror w Hr) as Hm.
  split; [done|]. intros target. by apply click_mirror.
Qed.

Lemma dividers_follow_content_witness :
  reachable (click OnLabel initial)
  ∧ dividers_mirror_content (click OnLabel initial)
  ∧ dividers_mirror_content (click OnIcon (click OnLabel initial)).
Proof.
  split; [exact reachable_expanded|].
  destruct (dividers_follow_content (click OnLabel initial)
              reachable_expanded) as [Hm Hall].
  split; [exact Hm | exact (Hall OnIcon)].
Defined.

(** * Further properties *)

(** ** Strings *)

Section OverlapFacts.

Implicit Types s p pre post u x y b : string.

Lemma app_split s1 s2 t1 t2 :
  s1 +:+ t1 = s2 +:+ t2 → len s2 ≤ len s1 →
  ∃ u, s1 = s2 +:+ u ∧ t2 = u +:+ t1.
Proof.
  revert s1. induction s2 as [|c s2 IH]; intros s1 Heq Hlen.
  - exists s1. by simpl in *.
  - destruct s1 as [|c' s1]; simpl in *; [lia|].
    injection Heq as -> Heq. destruct (IH s1 Heq) as (u & -> & ->); [lia|].
    by exists u.
Qed.

Lemma app_same_len s1 s2 t1 t2 :
  s1 +:+ t1 = s2 +:+ t2 → len s1 = len s2 → s1 = s2 ∧ t1 = t2.
Proof.
  intros Heq Hlen. destruct (app_split _ _ _ _ Heq) as (u & -> & ->); [lia|].
  rewrite len_app in Hlen. destruct u; simpl in *; [|lia].
  by rewrite app_nil_r.
Qed.

Lemma contains_framed s p pre post :
  contains s p → contains (pre +:+ s +:+ post) p.
Proof.
  intros (u & v & ->). exists (pre +:+ u), (v +:+ post).
  unfold occurrence. by rewrite !app_assoc.
Qed.

Lemma no_separator_cons c b :
  ¬ contains (String c b) "/" → c ≠ "/"%char ∧ ¬ contains b "/".
Proof.
  intros Hc. split.
  - intros ->. apply Hc. by exists "", b.
  - intros (u & v & ->). apply Hc. by exists (String c u), v.
Qed.

(** In a code without separator the first separator of [b/...] is the one
    right after [b]. *)
Lemma first_separator b x u rest :
  ¬ contains b "/" →
  (b +:+ "/") +:+ x = u +:+ String "/" rest →
  ∃ w, u = b +:+ w ∧ (w = "" ∨ ∃ w', w = String "/" w').
Proof.
  revert u. induction b as [|c b IH]; intros u Hb Heq.
  - exists u. split; [done|]. destruct u as [|c u]; [by left|].
    simpl in Heq. injection Heq as <- _. right. by exists u.
  - apply no_separator_cons in Hb as [Hc Hb].
    destruct u as [|c' u]; simpl in Heq.
    + injection Heq as -> _. done.
    + injection Heq as <- Heq. destruct (IH u Hb Heq) as (w & -> & Hw).
      by exists w.
Qed.

(** A second occurrence of [/b/] that starts before a given one lies
    before the separator that opens the given one. *)
Lemma segment_overlap b u x y :
  ¬ contains b "/" → u ≠ "" →
  ("/" +:+ b +:+ "/") +:+ x = u +:+ ("/" +:+ b +:+ "/") +:+ y →
  contains (u +:+ "/") ("/" +:+ b +:+ "/").
Proof.
  intros Hb Hu Heq. destruct u as [|c u]; [done|].
  simpl in Heq. injection Heq as <- Heq.
  destruct (first_separator b x u _ Hb Heq) as (w & -> & [->|[w' ->]]).
  - exists "", "". unfold occurrence. simpl. by rewrite !app_nil_r.
  - exists "", (w' +:+ "/"). unfold occurrence. simpl.
    by rewrite !app_assoc.
Qed.

Lemma replace_same s p :
  has_reference p = false → replace s p p = s.
Proof.
  intros Hp. destruct (indexOf s p) as [n|] eqn:Hn.
  - destruct (indexOf_Some _ _ _ Hn) as (pre & post & [Ho _] & _).
    destruct (replace_leftmost s p p) as (pre' & post' & [Ho' _] & ->);
      [by exists pre, post|].
    by rewrite GetSubstitution_literal.
  - by apply replace_absent, indexOf_None.
Qed.

(** Replacing [/a/] by [/b/] and then [/b/] by [/a/] gives the string back
    when [/b/] was not there to begin with. *)
Lemma replace_there_and_back s a b :
  has_reference a = false → has_reference b = false →
  ¬ contains b "/" →
  ¬ contains s ("/" +:+ b +:+ "/") →
  replace (replace s ("/" +:+ a +:+ "/") ("/" +:+ b +:+ "/"))
    ("/" +:+ b +:+ "/") ("/" +:+ a +:+ "/") = s.
Proof.
  intros Ha Hb Hsep Hfresh.
  destruct (indexOf s ("/" +:+ a +:+ "/")) as [n|] eqn:Hn.
  - destruct (indexOf_Some _ _ _ Hn) as (pre0 & post0 & [Ho0 _] & _).
    destruct (replace_leftmost s ("/" +:+ a +:+ "/") ("/" +:+ b +:+ "/"))
      as (pre & post & [Ho _] & ->); [by exists pre0, post0|].
    rewrite GetSubstitution_literal by by apply has_reference_segment.
    destruct (replace_leftmost
                (pre +:+ ("/" +:+ b +:+ "/") +:+ post)
                ("/" +:+ b +:+ "/") ("/" +:+ a +:+ "/"))
      as (pre' & post' & [Ho' Hmin] & ->); [by exists pre, post|].
    rewrite GetSubstitution_literal by by apply has_reference_segment.
    unfold occurrence in Ho, Ho'.
    assert (len pre' = len pre) as Hlen.
    { pose proof (Hmin pre post eq_refl) as Hle.
      destruct (decide (len pre' = len pre)) as [|Hne]; [done|].
      destruct (app_split _ _ _ _ Ho') as (u & -> & Hu); [lia|].
      assert (u ≠ "") as Hu' by (intros ->; rewrite app_nil_r in Hne; done).
      destruct Hfresh. rewrite Ho.
      apply (segment_overlap b u _ _ Hsep Hu') in Hu.
      replace ((pre' +:+ u) +:+ ("/" +:+ a +:+ "/") +:+ post)
        with (pre' +:+ (u +:+ "/") +:+ (a +:+ "/") +:+ post)
        by (simpl; by rewrite !app_assoc).
      by apply contains_framed. }
    symmetry in Ho'. apply app_same_len in Ho' as [-> Ho']; [|done].
    apply app_same_len in Ho' as [_ ->]; [|done]. done.
  - assert (¬ contains s ("/" +:+ a +:+ "/")) as Hc by by apply indexOf_None.
    rewrite (replace_absent s ("/" +:+ a +:+ "/")) by done.
    by apply replace_absent.
Qed.

End OverlapFacts.

(** ** The asset directory *)

(** X1: when the script was loaded from [dir/file], [file] holding no
    separator, [_FLYOUT_JS_DIR] is [dir]: everything before the last
    separator of the script's URL. *)
Theorem flyout_dir_of_script (page : Page) (dir file : string) :
  currentScript_src page = dir +:+ "/" +:+ file →
  ¬ contains file "/" →
  _FLYOUT_JS_DIR page = dir.
Proof. apply _FLYOUT_JS_DIR_directory. Qed.

Lemma flyout_dir_of_script_witness :
  currentScript_src served_page
  = "https://docs.example.org/_static" +:+ "/" +:+ "ltd-flyout.js"
  ∧ ¬ contains "ltd-flyout.js" "/"
  ∧ _FLYOUT_JS_DIR served_page = "https://docs.example.org/_static".
Proof.
  assert (¬ contains "ltd-flyout.js" "/") as Hfile
    by (apply indexOf_None; reflexivity).
  split; [reflexivity|]. split; [exact Hfile|].
  apply (flyout_dir_of_script served_page
           "https://docs.example.org/_static" "ltd-flyout.js");
    [reflexivity | exact Hfile].
Defined.

(** X2: when the script's URL holds no separator at all, as for an inline
    script, whose [src] is the empty string, [lastIndexOf] answers -1,
    [substring] clamps it to 0, and [_FLYOUT_JS_DIR] is empty; the fallback
    URL is then a separator, the language segment, a separator, the version
    segment and [/index.html], with no directory in front. *)
Theorem flyout_dir_without_separator
    (page : Page) (a : Axis) (selected : string) :
  ¬ contains (currentScript_src page) "/" →
  _FLYOUT_JS_DIR page = ""
  ∧ fallbackUrl page (axis_type a) selected
    = "/" +:+ match a with
              | Language => selected
              | Version => CURRENT_LANGUAGE page
              end
        +:+ "/" +:+ match a with
                    | Language => CURRENT_VERSION page
                    | Version => selected
                    end
        +:+ "/index.html".
Proof.
  intros Hsrc.
  assert (_FLYOUT_JS_DIR page = "") as Hdir.
  { unfold _FLYOUT_JS_DIR, _FLYOUT_JS_FILE, lastIndexOf.
    rewrite lastIndexOf_absent by done. unfold substring.
    replace (Z.min (Z.max 0 0) _) with 0%Z by lia.
    replace (Z.min (Z.max (-1) 0) _) with 0%Z by lia. done. }
  split; [done|]. rewrite fallbackUrl_axis. unfold fallback_shape.
  rewrite Hdir. by destruct a.
Qed.

Lemma flyout_dir_without_separator_witness :
  ¬ contains (currentScript_src bare_page) "/"
  ∧ _FLYOUT_JS_DIR bare_page = ""
  ∧ fallbackUrl bare_page (axis_type Version) "3.9"
    = "/en-us/3.9/index.html".
Proof.
  assert (¬ contains (currentScript_src bare_page) "/") as Hsrc
    by (apply indexOf_None; reflexivity).
  split; [exact Hsrc|].
  destruct (flyout_dir_without_separator bare_page Version "3.9" Hsrc)
    as [Hdir Hfallback].
  split; [exact Hdir | exact Hfallback].
Defined.

(** ** The resolver's use of the network and of the console *)

(** X3: whatever the [type], the selected value and the network,
    [getTargetUrl] issues no probe on a local page and exactly one on a
    served page, a [HEAD] request for the target URL. *)
Theorem getTargetUrl_probes_once
    (page : Page) (type selected : string) (net : Network) :
  filter is_fetch (getTargetUrl page type selected net).2
  = if _IS_LOCAL page then []
    else [EvFetch (targetUrl page type selected) "HEAD"].
Proof.
  rewrite getTargetUrl_run. cbv zeta.
  destruct (_IS_LOCAL page); [done|].
  destruct (net _) as [status|reason]; [destruct (ok status)|]; done.
Qed.

(** X4: the fallback is never returned silently.  When nothing was written
    to the console the result is the target URL; otherwise the page is a
    served one, exactly one message was written, and the result is the
    fallback URL. *)
Theorem getTargetUrl_logs_fallback
    (page : Page) (type selected : string) (net : Network) :
  let result := (getTargetUrl page type selected net).1 in
  let logged := filter is_log (getTargetUrl page type selected net).2 in
  (logged = [] → result = Resolved (Some (targetUrl page type selected)))
  ∧ (logged ≠ [] →
     _IS_LOCAL page = false
     ∧ length logged = 1
     ∧ result = Resolved (Some (fallbackUrl page type selected))).
Proof.
  cbv zeta. rewrite getTargetUrl_run. cbv zeta.
  destruct (_IS_LOCAL page); [done|].
  destruct (net _) as [status|reason]; [destruct (ok status)|]; done.
Qed.

(** ** Selecting the current code, and going back *)

(** X5: selecting the code the page already has, on either axis, leaves
    the path as it is, provided the code holds none of the references
    [$$], [$&], [$`], [$']; the target URL is then the prefix followed by
    the current path. *)
Theorem targetPath_current_code (page : Page) (a : Axis) :
  has_reference (current_code page a) = false →
  targetPath page (axis_type a) (current_code page a)
  = Some (location_pathname page)
  ∧ targetUrl page (axis_type a) (current_code page a)
    = url_prefix page +:+ location_pathname page.
Proof.
  intros Href.
  assert (targetPath page (axis_type a) (current_code page a)
          = Some (location_pathname page)) as Hp.
  { rewrite targetPath_axis. f_equal.
    by apply replace_same, has_reference_segment. }
  split; [done|]. by rewrite targetUrl_prefix, Hp.
Qed.

Lemma targetPath_current_code_witness :
  has_reference (current_code served_page Version) = false
  ∧ targetUrl served_page (axis_type Version) "latest"
    = "https://docs.example.org/en-us/latest/guide.html".
Proof.
  split; [reflexivity|].
  destruct (targetPath_current_code served_page Version eq_refl) as [_ Hu].
  exact Hu.
Defined.

(** X6: switching an axis to another code and, on the page reached,
    switching it back gives the original path again, provided neither code
    holds a [$]-reference, the new code holds no separator, and the new
    code between separators does not occur in the original path. *)
Theorem targetPath_round_trip
    (page page' : Page) (a : Axis) (selected : string) :
  has_reference (current_code page a) = false →
  has_reference selected = false →
  ¬ contains selected "/" →
  ¬ contains (location_pathname page) ("/" +:+ selected +:+ "/") →
  targetPath page (axis_type a) selected = Some (location_pathname page') →
  current_code page' a = selected →
  targetPath page' (axis_type a) (current_code page a)
  = Some (location_pathname page).
Proof.
  intros Hcur Hsel Hsep Hfresh Hthere Hcode.
  rewrite targetPath_axis in Hthere. injection Hthere as Hthere.
  rewrite targetPath_axis, <- Hthere, Hcode. f_equal.
  by apply replace_there_and_back.
Qed.

Lemma targetPath_round_trip_witness :
  targetPath served_page (axis_type Language) "zh-cn"
  = Some (location_pathname served_page_zh)
  ∧ targetPath served_page_zh (axis_type Language) "en-us"
    = Some (location_pathname served_page).
Proof.
  split; [reflexivity|].
  apply (targetPath_round_trip served_page served_page_zh Language "zh-cn");
    try reflexivity; apply indexOf_None; reflexivity.
Defined.

(** ** The change listeners *)

(** X7: a change of either selector always ends in a navigation, after one
    more suspension than the resolver's own; the new location is the prefix
    followed by the substituted path or, on a served page only, the
    fallback URL of that axis.  On a local page the navigation happens
    without any probe. *)
Theorem select_change_navigates
    (page : Page) (a : Axis) (value : string) (net : Network) :
  ∃ path,
    targetPath page (axis_type a) value = Some path
    ∧ ((select_change a page value net).1 = Some (url_prefix page +:+ path)
       ∨ (_IS_LOCAL page = false
          ∧ (select_change a page value net).1
            = Some (fallback_shape page a value)))
    ∧ (select_change a page value net).2
      = (getTargetUrl page (axis_type a) value net).2 ++ [EvAwait]
    ∧ (_IS_LOCAL page = true →
       select_change a page value net
       = (Some ("file://" +:+ path), [EvAwait])).
Proof.
  eexists. split; [apply targetPath_axis|].
  assert (select_change a page value net
          = assign_href_awaited (getTargetUrl page (axis_type a) value net))
    as -> by by destruct a.
  rewrite getTargetUrl_run, fallbackUrl_axis, targetUrl_prefix,
    targetPath_axis. cbv zeta. unfold url_prefix. cbn [to_string].
  destruct (_IS_LOCAL page); [by repeat split; auto|].
  destruct (net _) as [status|reason]; [destruct (ok status)|];
    repeat split; auto; done.
Qed.

(** ** More on the disclosure state *)

Section ToggleFacts.

Implicit Types (c : string) (l : ClassList.t) (w : Widget).

Lemma add_remove c l : c ∈ l → ClassList.add c (ClassList.remove c l) = l.
Proof.
  intros Hc. unfold ClassList.add, ClassList.remove.
  symmetry. by apply union_difference_singleton_L.
Qed.

Lemma remove_add c l : c ∉ l → ClassList.remove c (ClassList.add c l) = l.
Proof.
  intros Hc. unfold ClassList.add, ClassList.remove.
  apply set_eq. intros x.
  rewrite elem_of_difference, elem_of_union, !elem_of_singleton.
  split; [tauto|]. intros Hx. split; [tauto|]. by intros ->.
Qed.

Lemma remove_absent c l : c ∉ l → ClassList.remove c l = l.
Proof.
  intros Hc. unfold ClassList.remove. apply set_eq. intros x.
  rewrite elem_of_difference, elem_of_singleton.
  split; [tauto|]. intros Hx. split; [done|]. by intros ->.
Qed.

Lemma toggle_toggle c l :
  (ClassList.toggle c (ClassList.toggle c l).1).1 = l.
Proof.
  unfold ClassList.toggle. destruct (ClassList.contains c l) eqn:E; simpl.
  - rewrite contains_remove. simpl. by apply add_remove, contains_true.
  - rewrite contains_add. simpl. by apply remove_add, contains_false.
Qed.

Lemma toggle_force_twice c force force' l :
  ClassList.toggle_force c force (ClassList.toggle_force c force' l)
  = ClassList.toggle_force c force l.
Proof.
  unfold ClassList.toggle_force, ClassList.add, ClassList.remove.
  apply set_eq. intros x. destruct (decide (x = c)), force, force';
    rewrite ?elem_of_union, ?elem_of_difference, ?elem_of_union,
      ?elem_of_difference, ?elem_of_singleton; tauto.
Qed.

Lemma toggle_force_same c l :
  ClassList.toggle_force c (ClassList.contains c l) l = l.
Proof.
  destruct (ClassList.contains c l) eqn:E; simpl.
  - by apply add_present, contains_true.
  - by apply remove_absent, contains_false.
Qed.

Lemma icon_click_label w :
  label (click OnIcon w) = (ClassList.toggle "hidden" (label w)).1.
Proof.
  unfold click, icon_listener.
  by destruct (ClassList.toggle "hidden" (label w)) as [l []].
Qed.

Lemma icon_click_header w :
  header (click OnIcon w)
  = ClassList.toggle_force "ltd-icon-only"
      (ClassList.toggle "hidden" (label w)).2 (header w).
Proof.
  unfold click, icon_listener.
  by destruct (ClassList.toggle "hidden" (label w)) as [l []].
Qed.

Lemma click_header_mirror target w :
  header_mirrors_label w → header_mirrors_label (click target w).
Proof.
  unfold header_mirrors_label. intros Hm. destruct target; try done.
  - unfold click, label_listener.
    by destruct (ClassList.toggle "ltd-flyout-closed" (content w)).
  - unfold click, icon_listener.
    destruct (toggle_flips "hidden" (label w)) as [Hc Hr].
    destruct (ClassList.toggle "hidden" (label w)) as [label' labelHidden].
    simpl in *.
    destruct labelHidden; simpl;
      by rewrite ?contains_add, ?contains_remove, Hc, <- Hr.
Qed.

Lemma reachable_header_mirror w : reachable w → header_mirrors_label w.
Proof.
  induction 1 as [|w w' _ IH Hstep]; [by vm_compute|].
  destruct Hstep. by apply click_header_mirror.
Qed.

End ToggleFacts.

(** X8: a click on the label toggles the content panel and nothing else:
    the panel is expanded afterwards exactly when it was collapsed before,
    every divider is shown exactly when the panel is, and the class lists
    of the label and of the header stay as they were. *)
Theorem label_click_toggles (w : Widget) :
  contentExpanded (click OnLabel w) = negb (contentExpanded w)
  ∧ Forall (λ divider,
      dividerVisible divider = negb (contentExpanded w))
      (dividers (click OnLabel w))
  ∧ label (click OnLabel w) = label w
  ∧ header (click OnLabel w) = header w.
Proof.
  destruct (label_click_flags w) as (Hc & Hl & Hm).
  unfold dividers_mirror_content in Hm. rewrite Hc in Hm.
  repeat split; try done.
  unfold click, label_listener.
  by destruct (ClassList.toggle "ltd-flyout-closed" (content w)).
Qed.

(** X9: in every reachable state two clicks on the label bring the widget
    back exactly as it was. *)
Theorem label_click_twice (w : Widget) :
  reachable w → click OnLabel (click OnLabel w) = w.
Proof.
  intros Hr. pose proof (reachable_mirror w Hr) as Hm.
  unfold dividers_mirror_content, dividerVisible, contentExpanded in Hm.
  pose proof (toggle_toggle "ltd-flyout-closed" (content w)) as Htt.
  destruct (toggle_flips "ltd-flyout-closed" (content w)) as [Hc1 Hr1].
  unfold click, label_listener.
  destruct (ClassList.toggle "ltd-flyout-closed" (content w))
    as [content1 hidden1]. simpl in *.
  destruct (toggle_flips "ltd-flyout-closed" content1) as [Hc2 Hr2].
  destruct (ClassList.toggle "ltd-flyout-closed" content1)
    as [content2 hidden2]. simpl in *. subst content2 hidden1 hidden2.
  rewrite Hc1, negb_involutive. destruct w as [h l ds c]. simpl in *.
  f_equal. rewrite <- list_fmap_compose.
  rewrite <- (list_fmap_id ds) at 2. apply Forall_fmap_ext.
  eapply Forall_impl; [exact Hm|]. intros d Hd. simpl.
  rewrite toggle_force_twice.
  apply (f_equal negb) in Hd. rewrite !negb_involutive in Hd.
  rewrite <- Hd. apply toggle_force_same.
Qed.

Lemma label_click_twice_witness :
  reachable icon_only ∧ click OnLabel (click OnLabel icon_only) = icon_only.
Proof.
  assert (reachable icon_only) as Hr.
  { apply (reachable_step initial); [apply reachable_initial|].
    by apply (step_click OnIcon). }
  split; [exact Hr | exact (label_click_twice icon_only Hr)].
Defined.

(** X10: in every reachable state the header carries [ltd-icon-only]
    exactly when the label carries [hidden]. *)
Theorem header_follows_label (w : Widget) :
  reachable w → header_mirrors_label w.
Proof. apply reachable_header_mirror. Qed.

Lemma header_follows_label_witness :
  reachable icon_only
  ∧ ClassList.contains "ltd-icon-only" (header icon_only)
    = ClassList.contains "hidden" (label icon_only).
Proof.
  assert (reachable icon_only) as Hr.
  { apply (reachable_step initial); [apply reachable_initial|].
    by apply (step_click OnIcon). }
  split; [exact Hr | exact (header_follows_label icon_only Hr)].
Defined.

(** X11: in every reachable state two clicks on the icon leave the class
    lists of the label and of the header exactly as they were. *)
Theorem icon_click_twice (w : Widget) :
  reachable w →
  label (click OnIcon (click OnIcon w)) = label w
  ∧ header (click OnIcon (click OnIcon w)) = header w.
Proof.
  intros Hr. pose proof (reachable_header_mirror w Hr) as Hm.
  unfold header_mirrors_label in Hm.
  rewrite !icon_click_header, !icon_click_label, toggle_toggle.
  split; [done|].
  destruct (toggle_flips "hidden" (label w)) as [Hc1 ->].
  destruct (toggle_flips "hidden" (ClassList.toggle "hidden" (label w)).1)
    as [_ ->].
  rewrite toggle_force_twice, Hc1, negb_involutive, <- Hm.
  apply toggle_force_same.
Qed.

Lemma icon_click_twice_witness :
  reachable expanded
  ∧ label (click OnIcon (click OnIcon expanded)) = label expanded
  ∧ header (click OnIcon (click OnIcon expanded)) = header expanded.
Proof.
  split; [exact reachable_expanded|].
  exact (icon_click_twice expanded reachable_expanded).
Defined.

Section ThreeStates.

Lemma reachable_icon_only : reachable icon_only.
Proof.
  apply (reachable_step initial); [apply reachable_initial|].
  by apply (step_click OnIcon).
Qed.

Lemma label_hidden_icon_only : ¬ displayed OnLabel icon_only.
Proof. intros Hd. apply Hd, contains_true. by vm_compute. Qed.

Lemma clicks_from_initial :
  click OnLabel initial = expanded ∧ click OnIcon initial = icon_only
  ∧ click ElsewhereInFlyout initial = initial
  ∧ click OutsideFlyout initial = initial.
Proof. repeat split; by vm_compute. Qed.

Lemma clicks_from_expanded :
  click OnLabel expanded = initial ∧ click OnIcon expanded = icon_only
  ∧ click ElsewhereInFlyout expanded = expanded
  ∧ click OutsideFlyout expanded = initial.
Proof. repeat split; by vm_compute. Qed.

Lemma clicks_from_icon_only :
  click OnIcon icon_only = initial
  ∧ click ElsewhereInFlyout icon_only = icon_only
  ∧ click OutsideFlyout icon_only = icon_only.
Proof. repeat split; by vm_compute. Qed.

End ThreeStates.

(** X12: the widget has exactly three reachable states: the initial one
    (label shown, content collapsed), the one after a click on the label
    (label shown, content expanded) and the one after a click on the icon
    (icon only, content collapsed). *)
Theorem reachable_three_states (w : Widget) :
  reachable w ↔ w = initial ∨ w = expanded ∨ w = icon_only.
Proof.
  split.
  - induction 1 as [|w w' _ IH Hstep]; [by left|].
    destruct Hstep as [target w Hd].
    destruct clicks_from_initial as (Hi1 & Hi2 & Hi3 & Hi4).
    destruct clicks_from_expanded as (He1 & He2 & He3 & He4).
    destruct clicks_from_icon_only as (Ho2 & Ho3 & Ho4).
    destruct IH as [->|[->| ->]]; destruct target;
      rewrite ?Hi1, ?Hi2, ?Hi3, ?Hi4, ?He1, ?He2, ?He3, ?He4,
        ?Ho2, ?Ho3, ?Ho4; auto.
    by destruct label_hidden_icon_only.
  - intros [->|[->| ->]];
      [apply reachable_initial | apply reachable_expanded
      | apply reachable_icon_only].
Qed.

(** ** More on rendering *)

(** X14: when every configured language is a sentinel, in particular when
    none is configured, the language selector has no option and its markup
    is empty. *)
Theorem languageOptions_all_sentinels (page : Page) :
  Forall sentinel (CONFIG_LANGUAGES page) →
  languageRows page = [] ∧ languageOptions page = "".
Proof.
  intros Hall.
  assert (languageRows page = []) as Hrows.
  { unfold languageRows, _CONFIG_LANGUAGES.
    induction Hall as [|[code name] config Hs _ IH]; [done|].
    rewrite filter_cons. unfold sentinel in Hs. simpl in *.
    by rewrite decide_False by tauto. }
  split; [done|]. unfold languageOptions. by rewrite Hrows.
Qed.

Lemma languageOptions_all_sentinels_witness :
  Forall sentinel (CONFIG_LANGUAGES bare_page)
  ∧ languageOptions bare_page = "".
Proof.
  assert (Forall sentinel (CONFIG_LANGUAGES bare_page)) as Hall
    by (by repeat constructor).
  split; [exact Hall|].
  destruct (languageOptions_all_sentinels bare_page Hall) as [_ Hm].
  exact Hm.
Defined.
